(** * The authors/books toy API: REST handlers and GraphQL resolvers

    A shallow embedding of [rest_app.py] and [graphql_app.py].  Both modules
    keep two module-level Python lists of dicts, [authors] and [books], and
    expose read and create operations over them.  The embedding follows the
    Python text: records are dicts (finite maps from keys to Python values),
    handlers are state-passing computations that may raise, and the Python
    operators the handlers use ([==], [in], [x[k]], [x.get(k)], [not x],
    [str], [len]) are written out on the value type. *)

From Stdlib Require Import ZArith DecimalNat DecimalString.
From stdpp Require Import gmap strings list fin_maps.

Local Open Scope string_scope.
Local Open Scope list_scope.
Set Default Proof Using "Type".

(** ** Python values

    The values a decoded JSON body can hold, which are also the values the
    stored dicts hold.  JSON numbers are modelled by integers: the handlers
    only pass numbers through, and fractional numbers are left out. *)

#[warnings="-register-all"] Inductive value : Type :=
  | VNone
  | VBool (b : bool)
  | VInt (z : Z)
  | VStr (s : string)
  | VList (l : list value)
  | VDict (d : gmap string value).

(** A record of the store: a Python dict with string keys. *)
Abbreviation dict := (gmap string value).

Inductive exn : Type :=
  | KeyError
  | TypeError
  | AttributeError
  | Exception (msg : string).

Inductive result (A : Type) : Type :=
  | Ok (a : A)
  | Raise (e : exn).
Arguments Ok {A} a.
Arguments Raise {A} e.

Global Instance result_ret : MRet result := λ A a, Ok a.
Global Instance result_bind : MBind result := λ A B f r,
  match r with
  | Ok a => f a
  | Raise e => Raise e
  end.

(** [bool] is a subclass of [int]: [True == 1] and [False == 0]. *)
Definition as_int (v : value) : option Z :=
  match v with
  | VBool b => Some (if b then 1%Z else 0%Z)
  | VInt z => Some z
  | _ => None
  end.

(** Python's [v == w]. *)
Fixpoint py_eq (v w : value) {struct v} : bool :=
  match v, w with
  | VNone, VNone => true
  | VStr s, VStr t => bool_decide (s = t)
  | VList l, VList l' =>
      (fix go (l l' : list value) : bool :=
         match l, l' with
         | [], [] => true
         | x :: l, y :: l' => py_eq x y && go l l'
         | _, _ => false
         end) l l'
  | VDict d, VDict d' =>
      bool_decide (dom d = dom d') &&
      map_fold (λ k x acc,
                  acc && match d' !! k with
                         | Some y => py_eq x y
                         | None => false
                         end) true d
  | (VBool _ | VInt _), (VBool _ | VInt _) =>
      bool_decide (as_int v = as_int w)
  | _, _ => false
  end.

(** Python's truth value, as tested by [not v] and [if v]. *)
Definition truthy (v : value) : bool :=
  match v with
  | VNone => false
  | VBool b => b
  | VInt z => negb (Z.eqb z 0)
  | VStr s => negb (bool_decide (s = ""))
  | VList l => negb (bool_decide (l = []))
  | VDict d => negb (bool_decide (dom d = ∅))
  end.

Fixpoint is_substring (needle hay : string) : bool :=
  String.prefix needle hay ||
  match hay with
  | EmptyString => false
  | String _ hay' => is_substring needle hay'
  end.

(** Python's [k in c] for a string [k]: key membership on a dict, element
    membership on a list, substring test on a string, [TypeError] on the
    values that are not containers. *)
Definition py_in (k : string) (c : value) : result bool :=
  match c with
  | VDict d => Ok (bool_decide (is_Some (d !! k)))
  | VList l => Ok (existsb (λ x, py_eq x (VStr k)) l)
  | VStr s => Ok (is_substring k s)
  | VNone | VBool _ | VInt _ => Raise TypeError
  end.

(** Python's [c[k]] for a string [k]. *)
Definition subscript (c : value) (k : string) : result value :=
  match c with
  | VDict d =>
      match d !! k with
      | Some v => Ok v
      | None => Raise KeyError
      end
  | _ => Raise TypeError
  end.

(** Python's [c.get(k)]: only dicts have the method. *)
Definition py_get (c : value) (k : string) : result value :=
  match c with
  | VDict d => Ok (default VNone (d !! k))
  | _ => Raise AttributeError
  end.

Definition len {A : Type} (l : list A) : nat := length l.

(** Python's [str(n)] on a non-negative [int]: its decimal digits. *)
Definition str (n : nat) : string := NilZero.string_of_uint (Nat.to_uint n).

(** A found-or-[None] result as a Python value. *)
Definition opt_value (o : option dict) : value :=
  match o with
  | Some d => VDict d
  | None => VNone
  end.

(** [next((x for x in l if x[key] == rhs), None)]: the first dict of [l]
    whose entry at [key] equals the right-hand side.  The generator evaluates
    [x[key]] and then [rhs] afresh for each element it visits, so a dict
    without the key raises [KeyError] when the scan reaches it, and an
    exception of [rhs] is raised only if some element is visited. *)
Fixpoint next_match (key : string) (rhs : result value) (l : list dict)
  : result (option dict) :=
  match l with
  | [] => Ok None
  | x :: l' =>
      match x !! key with
      | None => Raise KeyError
      | Some w =>
          v ← rhs;
          if py_eq w v then Ok (Some x) else next_match key rhs l'
      end
  end.

(** [[x for x in l if x[key] == v]]. *)
Fixpoint comprehension (key : string) (v : value) (l : list dict)
  : result (list dict) :=
  match l with
  | [] => Ok []
  | x :: l' =>
      match x !! key with
      | None => Raise KeyError
      | Some w =>
          rest ← comprehension key v l';
          Ok (if py_eq w v then x :: rest else rest)
      end
  end.

(** ** The store

    The two module-level lists.  Each application owns one pair of lists,
    with the same initial contents. *)

Record store : Type := Store {
  authors : list dict;
  books : list dict;
}.

Definition initial_authors : list dict := [
  {[ "id" := VStr "1"; "name" := VStr "J.K. Rowling"; "age" := VInt 59 ]};
  {[ "id" := VStr "2"; "name" := VStr "J.R.R. Tolkien"; "age" := VInt 81 ]}
].

Definition initial_books : list dict := [
  {[ "id" := VStr "1";
     "title" := VStr "Harry Potter and the Philosopher's Stone";
     "author_id" := VStr "1" ]};
  {[ "id" := VStr "2";
     "title" := VStr "Harry Potter and the Chamber of Secrets";
     "author_id" := VStr "1" ]};
  {[ "id" := VStr "3";
     "title" := VStr "Harry Potter and the Prisoner of Azkaban";
     "author_id" := VStr "1" ]};
  {[ "id" := VStr "4"; "title" := VStr "The Hobbit"; "author_id" := VStr "2" ]};
  {[ "id" := VStr "5";
     "title" := VStr "The Lord of the Rings: The Fellowship of the Ring";
     "author_id" := VStr "2" ]};
  {[ "id" := VStr "6";
     "title" := VStr "The Lord of the Rings: The Two Towers";
     "author_id" := VStr "2" ]};
  {[ "id" := VStr "7";
     "title" := VStr "The Lord of the Rings: The Return of the King";
     "author_id" := VStr "2" ]}
].

Definition initial_store : store := Store initial_authors initial_books.

(** A handler or resolver: it reads and appends to the store and either
    returns or raises.  An exception leaves the store as it was when it was
    raised. *)
Definition M (A : Type) : Type := store → result A * store.

Global Instance M_ret : MRet M := λ A a s, (Ok a, s).
Global Instance M_bind : MBind M := λ A B f m s,
  match m s with
  | (Ok a, s') => f a s'
  | (Raise e, s') => (Raise e, s')
  end.

Definition lift {A : Type} (r : result A) : M A := λ s, (r, s).
Definition raise {A : Type} (e : exn) : M A := λ s, (Raise e, s).
Definition read_authors : M (list dict) := λ s, (Ok (authors s), s).
Definition read_books : M (list dict) := λ s, (Ok (books s), s).

(** [authors.append(a)] and [books.append(b)]. *)
Definition authors_append (a : dict) : M unit :=
  λ s, (Ok (), Store (authors s ++ [a]) (books s)).
Definition books_append (b : dict) : M unit :=
  λ s, (Ok (), Store (authors s) (books s ++ [b])).

(** What a Flask view returns: the [jsonify]'d body and the status code. *)
Definition response : Type := value * nat.

Definition jsonify (v : value) : value := v.
Definition jsonify_list (l : list dict) : value := VList (VDict <$> l).

(** Records for running the handlers on concrete requests: two of the
    initial dataset, and two that lack an entry the handlers read. *)
Definition tolkien : dict :=
  {[ "id" := VStr "2"; "name" := VStr "J.R.R. Tolkien"; "age" := VInt 81 ]}.
Definition rowling : dict :=
  {[ "id" := VStr "1"; "name" := VStr "J.K. Rowling"; "age" := VInt 59 ]}.
Definition the_hobbit : dict :=
  {[ "id" := VStr "4"; "title" := VStr "The Hobbit"; "author_id" := VStr "2" ]}.
Definition anonymous : dict := {[ "name" := VStr "Anonymous" ]}.
Definition untitled : dict :=
  {[ "id" := VStr "1"; "title" := VStr "Untitled" ]}.

(** A rendering of containers that elides them, for running the handlers
    on concrete requests. *)
Definition repr_elided (v : value) : string :=
  match v with
  | VList _ => "[...]"
  | VDict _ => "{...}"
  | _ => ""
  end.

Section Applications.

(** Python's [repr] of a list or a dict, which an f-string shows when it
    formats a container.  It is part of the language runtime and is kept
    abstract. *)
Variable repr : value → string.

(** What [f"{v}"] shows. *)
Definition format (v : value) : string :=
  match v with
  | VNone => "None"
  | VBool true => "True"
  | VBool false => "False"
  | VInt z => NilZero.string_of_int (Z.to_int z)
  | VStr s => s
  | VList _ | VDict _ => repr v
  end.

(** ** rest_app.py *)

Definition get_authors : M response :=
  l ← read_authors;
  mret (jsonify_list l, 200).

Definition get_author (author_id : string) : M response :=
  l ← read_authors;
  author ← lift (next_match "id" (Ok (VStr author_id)) l);
  match author with
  | None => mret (jsonify (VDict {[ "error" := VStr "Author not found" ]}), 404)
  | Some a => mret (jsonify (VDict a), 200)
  end.

Definition create_author (data : value) : M response :=
  missing ← lift (if negb (truthy data) then Ok true
                  else b ← py_in "name" data; Ok (negb b));
  if missing : bool then
    mret (jsonify (VDict {[ "error" := VStr "Missing required field 'name'" ]}),
          400)
  else
    l ← read_authors;
    let new_author_id := str (len l + 1) in
    name ← lift (subscript data "name");
    age ← lift (py_get data "age");
    let new_author : dict :=
      {[ "id" := VStr new_author_id; "name" := name; "age" := age ]} in
    authors_append new_author;;
    mret (jsonify (VDict new_author), 201).

Definition get_books : M response :=
  l ← read_books;
  mret (jsonify_list l, 200).

Definition get_book (book_id : string) : M response :=
  bs ← read_books;
  book ← lift (next_match "id" (Ok (VStr book_id)) bs);
  match book with
  | None => mret (jsonify (VDict {[ "error" := VStr "Book not found" ]}), 404)
  | Some book =>
      l ← read_authors;
      author ← lift (next_match "id" (subscript (VDict book) "author_id") l);
      let book_with_author : dict := <[ "author" := opt_value author ]> book in
      mret (jsonify (VDict book_with_author), 200)
  end.

Definition create_book (data : value) : M response :=
  missing ← lift (if negb (truthy data) then Ok true
                  else b ← py_in "title" data;
                       if negb b then Ok true
                       else b' ← py_in "author_id" data; Ok (negb b'));
  if missing : bool then
    mret (jsonify (VDict {[ "error" :=
            VStr "Missing required fields 'title' or 'author_id'" ]}), 400)
  else
    l ← read_authors;
    matching_author ← lift (next_match "id" (subscript data "author_id") l);
    if negb (truthy (opt_value matching_author)) then
      shown ← lift (subscript data "author_id");
      mret (jsonify (VDict {[ "error" :=
              VStr ("No Author found with id=" +:+ format shown) ]}), 400)
    else
      bs ← read_books;
      let new_book_id := str (len bs + 1) in
      title ← lift (subscript data "title");
      author_id ← lift (subscript data "author_id");
      let new_book : dict :=
        {[ "id" := VStr new_book_id; "title" := title;
           "author_id" := author_id ]} in
      books_append new_book;;
      mret (jsonify (VDict new_book), 201).

(** ** graphql_app.py

    The arguments of a resolver arrive already coerced by the schema: an
    [ID] or [String] argument is a Python [str], an optional [Int] is an
    [int] or [None]. *)

Definition AuthorType_resolve_books (self : dict) : M (list dict) :=
  let author_id := default VNone (self !! "id") in
  bs ← read_books;
  lift (comprehension "author_id" author_id bs).

Definition BookType_resolve_author (self : dict) : M (option dict) :=
  let author_id := default VNone (self !! "author_id") in
  l ← read_authors;
  lift (next_match "id" (Ok author_id) l).

Definition Query_resolve_author (id : string) : M (option dict) :=
  l ← read_authors;
  lift (next_match "id" (Ok (VStr id)) l).

Definition Query_resolve_all_books : M (list dict) := read_books.

Definition CreateAuthor_mutate (name : string) (age : option Z) : M dict :=
  l ← read_authors;
  let new_author_id := str (len l + 1) in
  let new_author : dict :=
    {[ "id" := VStr new_author_id; "name" := VStr name;
       "age" := from_option VInt VNone age ]} in
  authors_append new_author;;
  mret new_author.

Definition CreateBook_mutate (title author_id : string) : M dict :=
  l ← read_authors;
  matching_author ← lift (next_match "id" (Ok (VStr author_id)) l);
  if negb (truthy (opt_value matching_author)) then
    raise (Exception ("No Author found with id=" +:+ author_id))
  else
    bs ← read_books;
    let new_book_id := str (len bs + 1) in
    let new_book : dict :=
      {[ "id" := VStr new_book_id; "title" := VStr title;
         "author_id" := VStr author_id ]} in
    books_append new_book;;
    mret new_book.

(** ** Requests

    Every way a client can enter either application: the six REST routes,
    the two root query fields, the two object-type field resolvers (applied
    to whatever parent object the executor hands them) and the two
    mutations.  [handle] gives the store a request leaves behind. *)

Inductive request : Type :=
  | GET_authors
  | GET_author (author_id : string)
  | POST_authors (data : value)
  | GET_books
  | GET_book (book_id : string)
  | POST_books (data : value)
  | Field_author (id : string)
  | Field_allBooks
  | Field_AuthorType_books (self : dict)
  | Field_BookType_author (self : dict)
  | Field_createAuthor (name : string) (age : option Z)
  | Field_createBook (title author_id : string).

Definition handle (r : request) (s : store) : store :=
  match r with
  | GET_authors => (get_authors s).2
  | GET_author author_id => (get_author author_id s).2
  | POST_authors data => (create_author data s).2
  | GET_books => (get_books s).2
  | GET_book book_id => (get_book book_id s).2
  | POST_books data => (create_book data s).2
  | Field_author id => (Query_resolve_author id s).2
  | Field_allBooks => (Query_resolve_all_books s).2
  | Field_AuthorType_books self => (AuthorType_resolve_books self s).2
  | Field_BookType_author self => (BookType_resolve_author self s).2
  | Field_createAuthor name age => (CreateAuthor_mutate name age s).2
  | Field_createBook title author_id => (CreateBook_mutate title author_id s).2
  end.

(** The stores a client can bring about from the initial dataset. *)
Inductive reachable : store → Prop :=
  | reachable_initial : reachable initial_store
  | reachable_handle r s : reachable s → reachable (handle r s).

(** ** Vocabulary of the properties *)

(** The entry of [d] at [key] equals [v], in Python's sense of [==]. *)
Definition matches (key : string) (v : value) (d : dict) : Prop :=
  match d !! key with
  | Some w => py_eq w v = true
  | None => False
  end.

Global Instance matches_dec key v d : Decision (matches key v d).
Proof. unfold matches. destruct (d !! key); apply _. Defined.

(** [o] is what a left-to-right scan of [l] for a dict with [P] finds: the
    first such dict, or nothing when there is none. *)
Definition first_with (P : dict → Prop) (l : list dict) (o : option dict)
    : Prop :=
  match o with
  | None => ∀ x, x ∈ l → ¬ P x
  | Some x => ∃ l1 l2, l = l1 ++ x :: l2 ∧ P x ∧ ∀ y, y ∈ l1 → ¬ P y
  end.

(** The shape the data model gives the records: an author has an [id], a
    book has an [id] and an [author_id]. *)
Definition wf_author (a : dict) : Prop := is_Some (a !! "id").
Definition wf_book (b : dict) : Prop :=
  is_Some (b !! "id") ∧ is_Some (b !! "author_id").
Definition wf_store (s : store) : Prop :=
  Forall wf_author (authors s) ∧ Forall wf_book (books s).

(** The error body of a response. *)
Definition error_body (body : value) : Prop :=
  ∃ msg, body = VDict {[ "error" := VStr msg ]}.

(** The three things a request can do to the store: nothing, append one
    author that has a string id, or append one book whose [author_id] equals
    the id of an author of the list. *)
Inductive effect (s : store) : store → Prop :=
  | effect_none : effect s s
  | effect_author (a : dict) (i : string) :
      a !! "id" = Some (VStr i) →
      effect s (Store (authors s ++ [a]) (books s))
  | effect_book (b a : dict) (v : value) :
      a ∈ authors s → matches "id" v a →
      is_Some (b !! "id") → b !! "author_id" = Some v →
      effect s (Store (authors s) (books s ++ [b])).

(** Every author has a string id, and every book has an id and a string
    [author_id] that is the id of an author of the list. *)
Definition integrity (s : store) : Prop :=
  Forall (λ a : dict, ∃ i, a !! "id" = Some (VStr i)) (authors s) ∧
  Forall (λ b : dict,
            is_Some (b !! "id") ∧
            ∃ i a, b !! "author_id" = Some (VStr i) ∧
                   a ∈ authors s ∧ a !! "id" = Some (VStr i)) (books s).

(** The records of [l] carry the ids the create handlers hand out: the
    record at position [i], counted from 0, has the id [str (i + 1)]. *)
Definition numbered (l : list dict) : Prop :=
  ∀ i x, l !! i = Some x → x !! "id" = Some (VStr (str (i + 1))).

(** What a request can do to the store, with the id of the new record: the
    decimal string of the length of its list plus one. *)
Inductive numbered_effect (s : store) : store → Prop :=
  | numbered_none : numbered_effect s s
  | numbered_author (a : dict) :
      a !! "id" = Some (VStr (str (length (authors s) + 1))) →
      numbered_effect s (Store (authors s ++ [a]) (books s))
  | numbered_book (b : dict) :
      b !! "id" = Some (VStr (str (length (books s) + 1))) →
      numbered_effect s (Store (authors s) (books s ++ [b])).

(** The requests that only read: the four [GET] routes, the two root query
    fields and the two object-type field resolvers. *)
Definition read_only (r : request) : bool :=
  match r with
  | POST_authors _ | POST_books _
  | Field_createAuthor _ _ | Field_createBook _ _ => false
  | _ => true
  end.

(** The body of the 400 answers of the two [POST] routes. *)
Definition missing_name : value :=
  VDict {[ "error" := VStr "Missing required field 'name'" ]}.
Definition missing_title_or_author_id : value :=
  VDict {[ "error" := VStr "Missing required fields 'title' or 'author_id'" ]}.

(** ** Python operators *)

Lemma py_eq_str_r (w : value) (s : string) :
  py_eq w (VStr s) = true ↔ w = VStr s.
Proof.
  destruct w; simpl; try (split; [discriminate | intros [=]]).
  rewrite bool_decide_eq_true. split; [intros -> | intros [=]]; done.
Qed.

Lemma py_eq_str_l (s : string) (v : value) :
  py_eq (VStr s) v = true ↔ v = VStr s.
Proof.
  destruct v; simpl; try (split; [discriminate | intros [=]]).
  rewrite bool_decide_eq_true. split; [intros -> | intros [=]]; done.
Qed.

Lemma str_decimal (n : nat) :
  option_map Nat.of_uint (NilZero.uint_of_string (str n)) = Some n.
Proof.
  unfold str. rewrite NilZero.usu.
  - simpl. by rewrite DecimalNat.Unsigned.of_to.
  - intros Hnil. pose proof (DecimalNat.Unsigned.of_to n) as Hn.
    rewrite Hnil in Hn. by subst n.
Qed.

Lemma matches_str (key s : string) (d : dict) :
  matches key (VStr s) d ↔ d !! key = Some (VStr s).
Proof.
  unfold matches. destruct (d !! key) as [w|]; [|by split].
  rewrite py_eq_str_r. split; [by intros -> | by intros [= ->]].
Qed.

(** ** Scans of the lists *)

Lemma first_with_ext (P Q : dict → Prop) l o :
  (∀ x, P x ↔ Q x) → first_with P l o → first_with Q l o.
Proof.
  intros HPQ. destruct o as [x|]; simpl.
  - intros (l1 & l2 & -> & HP & Hl1). exists l1, l2.
    split_and!; [done | by apply HPQ | intros y Hy ?; by eapply Hl1, HPQ].
  - intros Hno x Hx HQ. by eapply Hno, HPQ.
Qed.

Lemma first_with_Some_elem (P : dict → Prop) l x :
  first_with P l (Some x) → x ∈ l ∧ P x.
Proof. intros (l1 & l2 & -> & HP & _). split; [set_solver | done]. Qed.

Lemma next_match_spec (key : string) (v : value) (l : list dict) :
  Forall (λ x, is_Some (x !! key)) l →
  ∃ o, next_match key (Ok v) l = Ok o ∧ first_with (matches key v) l o.
Proof.
  induction 1 as [|x l [w Hw] _ (o & Hrun & Hfirst)]; simpl.
  - exists None. split; [done | intros x Hx; by apply elem_of_nil in Hx].
  - rewrite Hw. simpl. destruct (py_eq w v) eqn:Heq.
    + exists (Some x). split; [done |]. exists [], l.
      split_and!; [done | by unfold matches; rewrite Hw |].
      intros y Hy. by apply elem_of_nil in Hy.
    + assert (¬ matches key v x) as Hx by (unfold matches; rewrite Hw; congruence).
      exists o. split; [done |]. destruct o as [y|]; simpl in *.
      * destruct Hfirst as (l1 & l2 & -> & Hy & Hl1). exists (x :: l1), l2.
        split_and!; [done | done |]. intros z [->|Hz]%elem_of_cons; auto.
      * intros z [->|Hz]%elem_of_cons; auto.
Qed.

Lemma next_match_None (key : string) (v : value) (l : list dict) :
  Forall (λ x, is_Some (x !! key)) l →
  (∀ x, x ∈ l → ¬ matches key v x) →
  next_match key (Ok v) l = Ok None.
Proof.
  intros Hwf Hno. destruct (next_match_spec key v l Hwf) as ([x|] & Hrun & Hfirst);
    [|done].
  apply first_with_Some_elem in Hfirst as [Hx HP]. by destruct (Hno x Hx).
Qed.

Lemma comprehension_spec (key : string) (v : value) (l : list dict) :
  Forall (λ x, is_Some (x !! key)) l →
  comprehension key v l = Ok (filter (matches key v) l).
Proof.
  induction 1 as [|x l [w Hw] _ IH]; simpl; [done |].
  rewrite Hw, IH. simpl. rewrite filter_cons.
  destruct (decide (matches key v x)) as [Hm|Hm];
    unfold matches in Hm; rewrite Hw in Hm.
  - by rewrite Hm.
  - by apply not_true_is_false in Hm as ->.
Qed.

(** Unfolds a handler into the state-passing term it denotes. *)
Ltac run_handler :=
  unfold get_authors, get_author, create_author, get_books, get_book,
         create_book, AuthorType_resolve_books, BookType_resolve_author,
         Query_resolve_author, Query_resolve_all_books, CreateAuthor_mutate,
         CreateBook_mutate;
  unfold mbind, M_bind, mret, M_ret, lift, raise, read_authors, read_books,
         authors_append, books_append, jsonify, len;
  simpl.

(** ** Lookups by id *)

(** C7: on a well-formed store, [GET /authors/{id}] answers 404 with an error
    body exactly when no author of the list has the given id, and otherwise
    answers 200 with the first author that has it; the store is left as it
    was in both cases. *)
Theorem get_author_status (s : store) (author_id : string) :
  wf_store s →
  ∃ body status,
    get_author author_id s = (Ok (body, status), s) ∧
    (status = 404 ↔
       ∀ a, a ∈ authors s → a !! "id" ≠ Some (VStr author_id)) ∧
    (status = 404 → error_body body) ∧
    (status ≠ 404 →
       status = 200 ∧
       ∃ a, body = VDict a ∧
            first_with (λ a, a !! "id" = Some (VStr author_id))
                       (authors s) (Some a)).
Proof.
  intros [Ha _].
  destruct (next_match_spec "id" (VStr author_id) (authors s) Ha)
    as (o & Hrun & Hfirst).
  apply (first_with_ext _ (λ a, a !! "id" = Some (VStr author_id)))
    in Hfirst; [|intros; apply matches_str].
  run_handler. rewrite Hrun. destruct o as [a|]; simpl.
  - exists (VDict a), 200. split_and!; [done | | done |].
    + split; [done |]. intros Hno.
      apply first_with_Some_elem in Hfirst as [Hin Hid]. by destruct (Hno a Hin).
    + intros _. split; [done |]. by exists a.
  - eexists _, 404. split_and!; [done | | |done].
    + split; [intros _; exact Hfirst | done].
    + intros _. by eexists.
Qed.

(** C3: on a well-formed store, when some book has the requested id,
    [GET /books/{id}] answers 200 with the first such book extended by an
    [author] entry: the record of the first author whose id equals the
    book's [author_id], or [None] when no author has it.  Every other entry
    of the body is the stored book's, and the store is left as it was. *)
Theorem get_book_embeds_author (s : store) (book_id : string) :
  wf_store s →
  (∃ b, b ∈ books s ∧ b !! "id" = Some (VStr book_id)) →
  ∃ body b author_id,
    get_book book_id s = (Ok (VDict body, 200), s) ∧
    first_with (λ b, b !! "id" = Some (VStr book_id)) (books s) (Some b) ∧
    b !! "author_id" = Some author_id ∧
    ((∃ a, first_with (matches "id" author_id) (authors s) (Some a) ∧
           body !! "author" = Some (VDict a)) ∨
     ((∀ a, a ∈ authors s → ¬ matches "id" author_id a) ∧
      body !! "author" = Some VNone)) ∧
    ∀ k, k ≠ "author" → body !! k = b !! k.
Proof.
  intros [Ha Hb] (b0 & Hb0 & Hid0).
  assert (Forall (λ x : dict, is_Some (x !! "id")) (books s)) as Hbid.
  { eapply Forall_impl; [exact Hb | by intros ? []]. }
  destruct (next_match_spec "id" (VStr book_id) (books s) Hbid)
    as (ob & Hrunb & Hfirstb).
  apply (first_with_ext _ (λ b, b !! "id" = Some (VStr book_id)))
    in Hfirstb; [|intros; apply matches_str].
  destruct ob as [b|]; [|by destruct (Hfirstb b0 Hb0)].
  destruct (first_with_Some_elem _ _ _ Hfirstb) as [Hin _].
  rewrite Forall_forall in Hb. destruct (Hb b Hin) as [_ [author_id Haid]].
  destruct (next_match_spec "id" author_id (authors s) Ha)
    as (o & Hruna & Hfirsta).
  exists (<[ "author" := opt_value o ]> b), b, author_id.
  run_handler. rewrite Hrunb. simpl. rewrite Haid, Hruna. simpl.
  split_and!; [done | done | done | |].
  - rewrite lookup_insert_eq. destruct o as [a|]; simpl.
    + left. by exists a.
    + right. by split.
  - intros k Hk. by rewrite lookup_insert_ne.
Qed.

(** C4: on a well-formed store, when [author(id)] resolves to an author, the
    [books] field of that author is the list [allBooks] resolves to, which is
    the whole books list, filtered to the books whose [author_id] is the id,
    in the order of the list. *)
Theorem author_books_is_filter (s : store) (id : string) (a : dict) :
  wf_store s →
  Query_resolve_author id s = (Ok (Some a), s) →
  Query_resolve_all_books s = (Ok (books s), s) ∧
  AuthorType_resolve_books a s =
    (Ok (filter (λ b, matches "author_id" (VStr id) b) (books s)), s) ∧
  ∀ b, matches "author_id" (VStr id) b ↔ b !! "author_id" = Some (VStr id).
Proof.
  intros [Ha Hb] Hres. split_and!; [done | | intros; apply matches_str].
  revert Hres. run_handler.
  destruct (next_match_spec "id" (VStr id) (authors s) Ha)
    as (o & Hrun & Hfirst).
  rewrite Hrun. intros [= ->].
  apply first_with_Some_elem in Hfirst as [_ Hid%matches_str].
  rewrite Hid. simpl. rewrite comprehension_spec; [done |].
  eapply Forall_impl; [exact Hb | by intros ? []].
Qed.

(** ** Creation *)

Lemma next_match_Some (key : string) (rhs : result value) (l : list dict) x :
  next_match key rhs l = Ok (Some x) →
  x ∈ l ∧ ∃ v, rhs = Ok v ∧ matches key v x.
Proof.
  induction l as [|y l IH]; simpl; [done |].
  destruct (y !! key) as [w|] eqn:Hw; [|done].
  destruct rhs as [v|e]; simpl; [|done].
  destruct (py_eq w v) eqn:Heq.
  - intros [= ->]. split; [apply elem_of_cons; by left |].
    exists v. split; [done |]. unfold matches. by rewrite Hw.
  - intros [Hx Hv]%IH. split; [apply elem_of_cons; by right | done].
Qed.


Lemma dict_with_key_nonempty (d : dict) (k : string) :
  is_Some (d !! k) → bool_decide (dom d = ∅) = false.
Proof.
  intros Hk. apply bool_decide_eq_false. intros Hdom.
  apply elem_of_dom in Hk. rewrite Hdom in Hk. by apply not_elem_of_empty in Hk.
Qed.

Lemma matches_nonempty (key : string) (v : value) (d : dict) :
  matches key v d → bool_decide (dom d = ∅) = false.
Proof.
  unfold matches. intros Hm. apply (dict_with_key_nonempty d key).
  by destruct (d !! key).
Qed.

(** C1: on a well-formed store, a create-book request whose [author_id]
    equals the id of no author fails and leaves both lists as they were:
    [POST /books] answers 400 with an error body, and the [createBook]
    mutation raises an exception. *)
Theorem create_book_unknown_author (s : store) :
  wf_store s →
  (∀ (d : dict) (author_id : value),
     d !! "author_id" = Some author_id →
     (∀ a, a ∈ authors s → ¬ matches "id" author_id a) →
     ∃ body, create_book (VDict d) s = (Ok (body, 400), s) ∧ error_body body) ∧
  (∀ title author_id : string,
     (∀ a, a ∈ authors s → a !! "id" ≠ Some (VStr author_id)) →
     ∃ msg, CreateBook_mutate title author_id s = (Raise (Exception msg), s)).
Proof.
  intros [Ha _]. split.
  - intros d author_id Hd Hno. run_handler.
    rewrite (dict_with_key_nonempty d "author_id") by eauto.
    simpl. destruct (bool_decide (is_Some (d !! "title"))); simpl.
    + rewrite bool_decide_eq_true_2 by eauto. simpl. rewrite Hd.
      rewrite (next_match_None "id" author_id (authors s) Ha Hno). simpl.
      eexists. split; [done | by eexists].
    + eexists. split; [done | by eexists].
  - intros title author_id Hno. run_handler.
    rewrite (next_match_None "id" (VStr author_id) (authors s) Ha).
    + simpl. by eexists.
    + intros a Hin Hm%matches_str. by destruct (Hno a Hin).
Qed.

(** What [POST /authors] does with a body that has a [name] entry. *)
Lemma create_author_run (s : store) (d : dict) (name : value) :
  d !! "name" = Some name →
  let a : dict := {[ "id" := VStr (str (length (authors s) + 1));
                     "name" := name;
                     "age" := default VNone (d !! "age") ]} in
  create_author (VDict d) s =
    (Ok (VDict a, 201), Store (authors s ++ [a]) (books s)).
Proof.
  intros Hd. run_handler.
  rewrite (dict_with_key_nonempty d "name") by eauto. simpl.
  rewrite bool_decide_eq_true_2 by eauto. simpl. by rewrite Hd.
Qed.

(** What the [createAuthor] mutation does. *)
Lemma CreateAuthor_mutate_run (s : store) (name : string) (age : option Z) :
  let a : dict := {[ "id" := VStr (str (length (authors s) + 1));
                     "name" := VStr name;
                     "age" := from_option VInt VNone age ]} in
  CreateAuthor_mutate name age s =
    (Ok a, Store (authors s ++ [a]) (books s)).
Proof. done. Qed.

(** C2: a create-author request that carries a name succeeds on any store;
    the record it returns is appended to the authors list and its [id] is
    the decimal string of the number of authors before the request plus
    one.  This holds for [POST /authors] with a body that has a [name] entry
    and for the [createAuthor] mutation. *)
Theorem create_author_id (s : store) :
  (∀ (d : dict) (name : value),
     d !! "name" = Some name →
     ∃ a i,
       create_author (VDict d) s =
         (Ok (VDict a, 201), Store (authors s ++ [a]) (books s)) ∧
       a !! "id" = Some (VStr i) ∧ i = str (length (authors s) + 1) ∧
       option_map Nat.of_uint (NilZero.uint_of_string i) =
         Some (length (authors s) + 1)) ∧
  (∀ (name : string) (age : option Z),
     ∃ a i,
       CreateAuthor_mutate name age s =
         (Ok a, Store (authors s ++ [a]) (books s)) ∧
       a !! "id" = Some (VStr i) ∧ i = str (length (authors s) + 1) ∧
       option_map Nat.of_uint (NilZero.uint_of_string i) =
         Some (length (authors s) + 1)).
Proof.
  split.
  - intros d name Hd. eexists _, _.
    split_and!; [by apply create_author_run | by rewrite lookup_insert_eq
                 | done | apply str_decimal].
  - intros name age. eexists _, _.
    split_and!; [by apply CreateAuthor_mutate_run | by rewrite lookup_insert_eq
                 | done | apply str_decimal].
Qed.

(** C10: when a create-author request leaves the optional age out, the
    request still succeeds and the created record has an [age] entry whose
    value is [None]; the entry is present, not missing.  This holds for
    [POST /authors] with a body without an [age] entry and for the
    [createAuthor] mutation called without an age. *)
Theorem create_author_without_age (s : store) :
  (∀ (d : dict) (name : value),
     d !! "name" = Some name → d !! "age" = None →
     ∃ a s',
       create_author (VDict d) s = (Ok (VDict a, 201), s') ∧
       a !! "age" = Some VNone ∧ last (authors s') = Some a) ∧
  (∀ name : string,
     ∃ a s',
       CreateAuthor_mutate name None s = (Ok a, s') ∧
       a !! "age" = Some VNone ∧ last (authors s') = Some a).
Proof.
  split.
  - intros d name Hd Hage. eexists _, _.
    split_and!; [by apply create_author_run | | simpl; by rewrite last_snoc].
    by rewrite Hage.
  - intros name. eexists _, _.
    split_and!; [by apply CreateAuthor_mutate_run | done
                 | simpl; by rewrite last_snoc].
Qed.

(** ** What a request leaves behind *)

Lemma create_author_effect (data : value) (s : store) :
  effect s (create_author data s).2.
Proof.
  unfold create_author, mbind, M_bind, mret, M_ret, lift, read_authors,
    authors_append.
  destruct (truthy data); simpl; [|constructor].
  destruct (py_in "name" data) as [[]|]; simpl; try constructor.
  destruct (subscript data "name"); simpl; [|constructor].
  destruct (py_get data "age"); simpl; [|constructor].
  eapply effect_author. apply lookup_insert_eq.
Qed.

Lemma create_book_effect (data : value) (s : store) :
  effect s (create_book data s).2.
Proof.
  unfold create_book, mbind, M_bind, mret, M_ret, lift, read_authors,
    read_books, books_append.
  destruct (truthy data); simpl; [|constructor].
  destruct (py_in "title" data) as [[]|]; simpl; try constructor.
  destruct (py_in "author_id" data) as [[]|]; simpl; try constructor.
  destruct (next_match "id" (subscript data "author_id") (authors s))
    as [[a|]|] eqn:Hscan; simpl; try constructor.
  - apply next_match_Some in Hscan as (Hin & v & Hv & Hm).
    rewrite (matches_nonempty _ _ _ Hm). simpl.
    destruct (subscript data "title"); simpl; [|constructor].
    rewrite Hv. simpl. eapply (effect_book _ _ a v); [done | done | |].
    + rewrite lookup_insert_eq. eauto.
    + by rewrite lookup_insert_ne, lookup_insert_ne, lookup_singleton_eq.
  - destruct (subscript data "author_id"); constructor.
Qed.

Lemma CreateBook_mutate_effect (title author_id : string) (s : store) :
  effect s (CreateBook_mutate title author_id s).2.
Proof.
  unfold CreateBook_mutate, mbind, M_bind, mret, M_ret, lift, raise,
    read_authors, read_books, books_append.
  destruct (next_match "id" (Ok (VStr author_id)) (authors s))
    as [[a|]|] eqn:Hscan; simpl; try constructor.
  apply next_match_Some in Hscan as (Hin & v & [= <-] & Hm).
  rewrite (matches_nonempty _ _ _ Hm). simpl.
  eapply (effect_book _ _ a (VStr author_id)); [done | done | |].
  - rewrite lookup_insert_eq. eauto.
  - by rewrite lookup_insert_ne, lookup_insert_ne, lookup_singleton_eq.
Qed.

Lemma handle_effect (r : request) (s : store) : effect s (handle r s).
Proof.
  destruct r; simpl;
    try apply create_author_effect; try apply create_book_effect;
    try apply CreateBook_mutate_effect.
  - constructor.
  - unfold get_author, mbind, M_bind, mret, M_ret, lift, read_authors.
    destruct (next_match _ _ _) as [[?|]|]; constructor.
  - constructor.
  - unfold get_book, mbind, M_bind, mret, M_ret, lift, read_authors,
      read_books.
    destruct (next_match _ _ (books s)) as [[?|]|]; simpl; try constructor.
    destruct (next_match _ _ _) as [?|]; constructor.
  - unfold Query_resolve_author, mbind, M_bind, lift, read_authors.
    constructor.
  - constructor.
  - unfold AuthorType_resolve_books, mbind, M_bind, lift, read_books.
    constructor.
  - unfold BookType_resolve_author, mbind, M_bind, lift, read_authors.
    constructor.
  - eapply effect_author. apply lookup_insert_eq.
Qed.

(** C8: no request changes or removes a record.  Whatever the request and
    the store, each list after the request is the list before it followed by
    the new records, so every old record keeps its position and its entries,
    and at most one record is new in the two lists together. *)
Theorem handle_only_appends (r : request) (s : store) :
  ∃ new_authors new_books : list dict,
    authors (handle r s) = authors s ++ new_authors ∧
    books (handle r s) = books s ++ new_books ∧
    (length new_authors + length new_books ≤ 1)%nat ∧
    (∀ i a, authors s !! i = Some a → authors (handle r s) !! i = Some a) ∧
    (∀ i b, books s !! i = Some b → books (handle r s) !! i = Some b).
Proof.
  destruct (handle_effect r s) as [|a i Hid|b a v Hin Hm Hb Hv]; simpl.
  - exists [], []. rewrite !app_nil_r. split_and!; auto.
  - exists [a], []. rewrite app_nil_r. split_and!; auto.
    intros j x Hx. by apply lookup_app_l_Some.
  - exists [], [b]. rewrite app_nil_r. split_and!; auto.
    intros j x Hx. by apply lookup_app_l_Some.
Qed.

(** ** Referential integrity *)

Lemma integrity_initial : integrity initial_store.
Proof.
  split; simpl.
  - repeat constructor; by eexists.
  - unfold initial_books, initial_authors.
    repeat (apply Forall_cons; split;
            [split; [by eexists |];
             first [ eexists "1", _; split_and!;
                       [reflexivity | apply elem_of_cons; left; reflexivity
                        | reflexivity]
                   | eexists "2", _; split_and!;
                       [reflexivity
                        | apply elem_of_cons; right; apply elem_of_cons; left;
                          reflexivity
                        | reflexivity] ] |]).
    by apply Forall_nil.
Qed.

Lemma integrity_effect (s s' : store) :
  effect s s' → integrity s → integrity s'.
Proof.
  intros [|a i Hid|b a v Hin Hm Hb Hv] [Ha Hbooks]; [done | |]; split; simpl.
  - apply Forall_app. split; [done |]. repeat constructor. by exists i.
  - eapply Forall_impl; [exact Hbooks |]. simpl.
    intros b [Hbid (j & x & Hj & Hx & Hxid)]. split; [done |].
    exists j, x. split_and!; [done | apply elem_of_app; by left | done].
  - done.
  - apply Forall_app. split; [done |]. repeat constructor; [done |].
    rewrite Forall_forall in Ha. destruct (Ha a Hin) as [i Hi].
    unfold matches in Hm. rewrite Hi in Hm. apply py_eq_str_l in Hm as ->.
    by exists i, a.
Qed.

Lemma integrity_reachable (s : store) : reachable s → integrity s.
Proof.
  induction 1 as [|r s _ IH]; [apply integrity_initial |].
  eapply integrity_effect; [apply handle_effect | done].
Qed.

Lemma integrity_wf (s : store) : integrity s → wf_store s.
Proof.
  intros [Ha Hb]. split.
  - eapply Forall_impl; [exact Ha |]. intros a [i Hi]. by exists (VStr i).
  - eapply Forall_impl; [exact Hb |].
    intros b [Hid (i & _ & Hi & _)]. split; [done | by exists (VStr i)].
Qed.

(** C5: in every store reachable from the initial dataset by requests to
    either application, the [author_id] of every book of the books list is
    the [id] of some author of the authors list. *)
Theorem referential_integrity (s : store) :
  reachable s →
  ∀ b, b ∈ books s →
    ∃ a v, a ∈ authors s ∧ b !! "author_id" = Some v ∧ a !! "id" = Some v.
Proof.
  intros [_ Hb]%integrity_reachable b Hin.
  rewrite Forall_forall in Hb. destruct (Hb b Hin) as [_ (i & a & ? & ? & ?)].
  by exists a, (VStr i).
Qed.

(** ** The two applications side by side *)

(** What [POST /books] does with a body that has a [title] and an
    [author_id] entry, by the outcome of the scan of the authors. *)
Lemma create_book_run (s : store) (d : dict) (title author_id : value) :
  d !! "title" = Some title → d !! "author_id" = Some author_id →
  let b : dict := {[ "id" := VStr (str (length (books s) + 1));
                     "title" := title; "author_id" := author_id ]} in
  create_book (VDict d) s =
    match next_match "id" (Ok author_id) (authors s) with
    | Ok (Some _) => (Ok (VDict b, 201), Store (authors s) (books s ++ [b]))
    | Ok None =>
        (Ok (VDict {[ "error" :=
               VStr ("No Author found with id=" +:+ format author_id) ]}, 400),
         s)
    | Raise e => (Raise e, s)
    end.
Proof.
  intros Ht Ha. run_handler.
  rewrite (dict_with_key_nonempty d "title") by eauto. simpl.
  rewrite !bool_decide_eq_true_2 by eauto. simpl. rewrite Ha.
  destruct (next_match "id" (Ok author_id) (authors s))
    as [[a|]|] eqn:Hscan; simpl; [|done|done].
  apply next_match_Some in Hscan as (_ & v & _ & Hm).
  rewrite (matches_nonempty _ _ _ Hm). simpl. by rewrite Ht.
Qed.

(** What the [createBook] mutation does, by the outcome of the same scan. *)
Lemma CreateBook_mutate_run (s : store) (title author_id : string) :
  let b : dict := {[ "id" := VStr (str (length (books s) + 1));
                     "title" := VStr title; "author_id" := VStr author_id ]} in
  CreateBook_mutate title author_id s =
    match next_match "id" (Ok (VStr author_id)) (authors s) with
    | Ok (Some _) => (Ok b, Store (authors s) (books s ++ [b]))
    | Ok None =>
        (Raise (Exception ("No Author found with id=" +:+ author_id)), s)
    | Raise e => (Raise e, s)
    end.
Proof.
  run_handler.
  destruct (next_match "id" (Ok (VStr author_id)) (authors s))
    as [[a|]|] eqn:Hscan; simpl; [|done|done].
  apply next_match_Some in Hscan as (_ & v & _ & Hm).
  by rewrite (matches_nonempty _ _ _ Hm).
Qed.


(** ** The end-to-end scenario *)

(** C9: from the initial dataset, posting the author "Brandon Sanderson" of
    age 48 answers 201 with the record of id "3"; posting the book "Mistborn"
    with author id "3" then answers 201 with the record of id "8"; and
    [GET /books/8] then answers 200 with that book and, embedded in it, the
    author record of id "3". *)
Theorem scenario_sanderson :
  let sanderson : dict :=
    {[ "id" := VStr "3"; "name" := VStr "Brandon Sanderson";
       "age" := VInt 48 ]} in
  let mistborn : dict :=
    {[ "id" := VStr "8"; "title" := VStr "Mistborn";
       "author_id" := VStr "3" ]} in
  let s1 := Store (initial_authors ++ [sanderson]) initial_books in
  let s2 := Store (initial_authors ++ [sanderson])
                  (initial_books ++ [mistborn]) in
  length (authors initial_store) = 2 ∧ length (books initial_store) = 7 ∧
  create_author
    (VDict {[ "name" := VStr "Brandon Sanderson"; "age" := VInt 48 ]})
    initial_store = (Ok (VDict sanderson, 201), s1) ∧
  create_book
    (VDict {[ "title" := VStr "Mistborn"; "author_id" := VStr "3" ]}) s1 =
    (Ok (VDict mistborn, 201), s2) ∧
  get_book "8" s2 =
    (Ok (VDict (<[ "author" := VDict sanderson ]> mistborn), 200), s2).
Proof.
  intros sanderson mistborn s1 s2.
  split_and!; [done | done | | |]; vm_compute; reflexivity.
Qed.

(** ** Further behaviour of the handlers: failures *)

(** X1: on a well-formed store, [GET /books/{id}] for an id that no book of
    the list has answers 404 with the body [{"error": "Book not found"}] and
    leaves the store as it was. *)
Theorem get_book_not_found (s : store) (book_id : string) :
  wf_store s →
  (∀ b, b ∈ books s → b !! "id" ≠ Some (VStr book_id)) →
  get_book book_id s =
    (Ok (VDict {[ "error" := VStr "Book not found" ]}, 404), s).
Proof.
  intros [_ Hb] Hno. run_handler.
  rewrite (next_match_None "id" (VStr book_id) (books s)); [done | |].
  - eapply Forall_impl; [exact Hb | by intros ? []].
  - intros b Hin Hm%matches_str. by destruct (Hno b Hin).
Qed.

(** X2: [POST /authors] with a body that is falsy ([None], [false], [0],
    the empty string, list or object) or that is an object without a [name]
    entry answers 400 with the missing-field error, on any store, and
    leaves the store as it was. *)
Theorem create_author_missing_name (s : store) (data : value) :
  truthy data = false ∨ (∃ d : dict, data = VDict d ∧ d !! "name" = None) →
  create_author data s = (Ok (missing_name, 400), s).
Proof.
  unfold create_author, mbind, M_bind, mret, M_ret, lift, missing_name.
  intros [-> | (d & -> & Hd)]; [done |].
  destruct (truthy (VDict d)); simpl; [|done].
  rewrite bool_decide_eq_false_2; [done |]. rewrite Hd. by intros [? [=]].
Qed.

(** X3: [POST /books] with a falsy body or with an object that lacks the
    [title] or the [author_id] entry answers 400 with the missing-fields
    error, on any store and whatever the authors are, and leaves the store
    as it was. *)
Theorem create_book_missing_fields (s : store) (data : value) :
  truthy data = false ∨
  (∃ d : dict, data = VDict d ∧
               (d !! "title" = None ∨ d !! "author_id" = None)) →
  create_book data s = (Ok (missing_title_or_author_id, 400), s).
Proof.
  unfold create_book, mbind, M_bind, mret, M_ret, lift,
    missing_title_or_author_id.
  intros [-> | (d & -> & Hd)]; [done |].
  destruct (truthy (VDict d)); simpl; [|done].
  destruct (bool_decide (is_Some (d !! "title"))) eqn:Ht; simpl; [|done].
  destruct Hd as [Hd | Hd].
  - apply bool_decide_eq_true in Ht. rewrite Hd in Ht. by destruct Ht as [? [=]].
  - rewrite bool_decide_eq_false_2; [done |]. rewrite Hd. by intros [? [=]].
Qed.

(** X4: a body that is not an object never creates a record.
    [POST /authors] with such a body either answers 400 with the
    missing-field error or raises [TypeError], on any store; so does
    [POST /books] on a well-formed store.  Both leave the store as it
    was. *)
Theorem non_object_body_rejected (s : store) (data : value) :
  (∀ d : dict, data ≠ VDict d) →
  (create_author data s = (Ok (missing_name, 400), s) ∨
   create_author data s = (Raise TypeError, s)) ∧
  (wf_store s →
   create_book data s = (Ok (missing_title_or_author_id, 400), s) ∨
   create_book data s = (Raise TypeError, s)).
Proof.
  intros Hnot. split; [|intros [Hwf _]].
  - unfold create_author, mbind, M_bind, mret, M_ret, lift, missing_name.
    destruct data as [|b|z|t|l|d]; try by destruct (Hnot d).
    + by left.
    + destruct b; [by right | by left].
    + destruct (truthy (VInt z)); [by right | by left].
    + destruct (truthy (VStr t)); simpl; [|by left].
      destruct (is_substring "name" t); simpl; [by right | by left].
    + destruct (truthy (VList l)); simpl; [|by left].
      destruct (existsb _ l); simpl; [by right | by left].
  - unfold create_book, mbind, M_bind, mret, M_ret, lift, read_authors,
      missing_title_or_author_id.
    destruct data as [|b|z|t|l|d]; try by destruct (Hnot d).
    + by left.
    + destruct b; [by right | by left].
    + destruct (truthy (VInt z)); [by right | by left].
    + destruct (truthy (VStr t)); simpl; [|by left].
      destruct (is_substring "title" t); simpl; [|by left].
      destruct (is_substring "author_id" t); simpl; [|by left].
      right. destruct Hwf as [|a l' [w Hw] _]; simpl; [done |].
      by rewrite Hw.
    + destruct (truthy (VList l)); simpl; [|by left].
      destruct (existsb _ l); simpl; [|by left].
      destruct (existsb _ l); simpl; [|by left].
      right. destruct Hwf as [|a l' [w Hw] _]; simpl; [done |].
      by rewrite Hw.
Qed.

(** ** Further behaviour of the handlers: creation *)


Lemma create_author_cases (data : value) (s : store) :
  (∃ a : dict,
     a !! "id" = Some (VStr (str (length (authors s) + 1))) ∧
     create_author data s =
       (Ok (VDict a, 201), Store (authors s ++ [a]) (books s))) ∨
  (∃ r, create_author data s = (r, s) ∧ ∀ body, r ≠ Ok (body, 201)).
Proof.
  unfold create_author, mbind, M_bind, mret, M_ret, lift, read_authors,
    authors_append, jsonify, len.
  destruct (truthy data); simpl; [|right; by eexists].
  destruct (py_in "name" data) as [[]|]; simpl; try (right; by eexists).
  destruct (subscript data "name"); simpl; [|right; by eexists].
  destruct (py_get data "age"); simpl; [|right; by eexists].
  left. eexists. split; [|done]. apply lookup_insert_eq.
Qed.

Lemma create_book_cases (data : value) (s : store) :
  (∃ b : dict,
     b !! "id" = Some (VStr (str (length (books s) + 1))) ∧
     create_book data s =
       (Ok (VDict b, 201), Store (authors s) (books s ++ [b]))) ∨
  (∃ r, create_book data s = (r, s) ∧ ∀ body, r ≠ Ok (body, 201)).
Proof.
  unfold create_book, mbind, M_bind, mret, M_ret, lift, read_authors,
    read_books, books_append, jsonify, len.
  destruct (truthy data); simpl; [|right; by eexists].
  destruct (py_in "title" data) as [[]|]; simpl; try (right; by eexists).
  destruct (py_in "author_id" data) as [[]|]; simpl; try (right; by eexists).
  destruct (next_match "id" (subscript data "author_id") (authors s))
    as [[a|]|] eqn:Hscan; simpl; try (right; by eexists).
  - apply next_match_Some in Hscan as (Hin & v & Hv & Hm).
    rewrite (matches_nonempty _ _ _ Hm). simpl.
    destruct (subscript data "title"); simpl; [|right; by eexists].
    rewrite Hv. simpl. left. eexists. split; [|done]. apply lookup_insert_eq.
  - destruct (subscript data "author_id"); right; by eexists.
Qed.

(** X6: the two [POST] routes are all or nothing.  For every body and every
    store, either the route answers 201 with a record and exactly that
    record is appended to its list, or the answer is not a 201 (an error
    answer or an exception) and the store is left as it was. *)
Theorem post_all_or_nothing (data : value) (s : store) :
  ((∃ a : dict,
      create_author data s =
        (Ok (VDict a, 201), Store (authors s ++ [a]) (books s))) ∨
   (∃ r, create_author data s = (r, s) ∧ ∀ body, r ≠ Ok (body, 201))) ∧
  ((∃ b : dict,
      create_book data s =
        (Ok (VDict b, 201), Store (authors s) (books s ++ [b]))) ∨
   (∃ r, create_book data s = (r, s) ∧ ∀ body, r ≠ Ok (body, 201))).
Proof.
  split.
  - destruct (create_author_cases data s) as [(a & _ & Hrun) | Hfail];
      [left; by exists a | by right].
  - destruct (create_book_cases data s) as [(b & _ & Hrun) | Hfail];
      [left; by exists b | by right].
Qed.

(** X7: the requests that only read never write.  On every store, also an
    ill-formed one on which the scan raises, the four [GET] routes, the two
    root query fields and the two field resolvers leave both lists exactly
    as they were. *)
Theorem reads_do_not_write (r : request) (s : store) :
  read_only r = true → handle r s = s.
Proof.
  destruct r; simpl; try discriminate; intros _; try done.
  - unfold get_author, mbind, M_bind, mret, M_ret, lift, read_authors.
    by destruct (next_match _ _ _) as [[?|]|].
  - unfold get_book, mbind, M_bind, mret, M_ret, lift, read_authors,
      read_books.
    destruct (next_match _ _ (books s)) as [[?|]|]; simpl; try done.
    by destruct (next_match _ _ _) as [?|].
Qed.

(** ** The ids of the records *)

Lemma str_inj (n m : nat) : str n = str m → n = m.
Proof.
  intros Heq. pose proof (str_decimal n) as Hn. rewrite Heq, str_decimal in Hn.
  by injection Hn.
Qed.

Lemma numbered_snoc (l : list dict) (x : dict) :
  numbered l → x !! "id" = Some (VStr (str (length l + 1))) →
  numbered (l ++ [x]).
Proof.
  intros Hl Hx i y Hy. apply lookup_app_Some in Hy as [Hy | [Hge Hy]].
  - by apply Hl.
  - apply list_lookup_singleton_Some in Hy as [Hi <-].
    by replace i with (length l) by lia.
Qed.

Lemma numbered_has_id (l : list dict) :
  numbered l → Forall (λ x : dict, is_Some (x !! "id")) l.
Proof.
  intros Hl. apply Forall_lookup. intros i x Hx. rewrite (Hl i x Hx). eauto.
Qed.

Lemma numbered_initial :
  numbered (authors initial_store) ∧ numbered (books initial_store).
Proof.
  split; intros i x; simpl.
  - do 2 (destruct i as [|i]; [by intros [= <-] |]). done.
  - do 7 (destruct i as [|i]; [by intros [= <-] |]). done.
Qed.

Lemma handle_numbered_effect (r : request) (s : store) :
  numbered_effect s (handle r s).
Proof.
  destruct r; unfold handle.
  - constructor.
  - unfold get_author, mbind, M_bind, mret, M_ret, lift, read_authors.
    destruct (next_match _ _ _) as [[?|]|]; constructor.
  - destruct (create_author_cases data s) as [(a & Hid & ->) | (r & -> & _)];
      simpl; [by apply numbered_author | constructor].
  - constructor.
  - unfold get_book, mbind, M_bind, mret, M_ret, lift, read_authors,
      read_books.
    destruct (next_match _ _ (books s)) as [[?|]|]; simpl; try constructor.
    destruct (next_match _ _ _) as [?|]; constructor.
  - destruct (create_book_cases data s) as [(b & Hid & ->) | (r & -> & _)];
      simpl; [by apply numbered_book | constructor].
  - constructor.
  - constructor.
  - constructor.
  - constructor.
  - rewrite CreateAuthor_mutate_run. simpl. apply numbered_author.
    apply lookup_insert_eq.
  - rewrite CreateBook_mutate_run.
    destruct (next_match _ _ _) as [[?|]|]; simpl;
      [|apply numbered_none|apply numbered_none].
    apply numbered_book. apply lookup_insert_eq.
Qed.

Lemma numbered_reachable (s : store) :
  reachable s → numbered (authors s) ∧ numbered (books s).
Proof.
  induction 1 as [|r s _ [Ha Hb]]; [apply numbered_initial |].
  destruct (handle_numbered_effect r s) as [|a Hid|b Hid]; simpl.
  - done.
  - split; [by apply numbered_snoc | done].
  - split; [done | by apply numbered_snoc].
Qed.

Lemma numbered_unique (l : list dict) (i j : nat) (x y : dict) :
  numbered l → l !! i = Some x → l !! j = Some y →
  x !! "id" = y !! "id" → i = j.
Proof.
  intros Hl Hx Hy Heq. rewrite (Hl i x Hx), (Hl j y Hy) in Heq.
  injection Heq as Heq. apply str_inj in Heq. lia.
Qed.

(** A scan of a numbered list for the id of position [i] stops at the
    record of position [i]. *)
Lemma next_match_numbered (l : list dict) (i : nat) (x : dict) :
  numbered l → l !! i = Some x →
  next_match "id" (Ok (VStr (str (i + 1)))) l = Ok (Some x).
Proof.
  intros Hl Hx.
  destruct (next_match_spec "id" (VStr (str (i + 1))) l (numbered_has_id l Hl))
    as (o & -> & Hfirst).
  destruct o as [y|]; simpl in Hfirst.
  - destruct Hfirst as (l1 & l2 & -> & Hy%matches_str & _).
    assert ((l1 ++ y :: l2) !! length l1 = Some y) as Hpos
      by apply list_lookup_middle, eq_refl.
    assert (length l1 = i) as <-.
    { eapply (numbered_unique _ _ _ y x Hl Hpos Hx).
      by rewrite Hy, (Hl _ _ Hx). }
    rewrite Hpos in Hx. by injection Hx as ->.
  - destruct (Hfirst x).
    + by eapply list_elem_of_lookup_2.
    + apply matches_str. by apply Hl.
Qed.

(** X8: in every store reachable from the initial dataset, the ids are the
    positions: the author at position [i] of the authors list, counted from
    0, has the id [str (i + 1)], and so has the book at position [i] of the
    books list. *)
Theorem ids_are_positions (s : store) :
  reachable s →
  (∀ i a, authors s !! i = Some a → a !! "id" = Some (VStr (str (i + 1)))) ∧
  (∀ i b, books s !! i = Some b → b !! "id" = Some (VStr (str (i + 1)))).
Proof. apply numbered_reachable. Qed.

(** X9: in every store reachable from the initial dataset, ids are unique
    within each list: two authors with the same id are at the same position,
    and so are two books with the same id. *)
Theorem ids_are_unique (s : store) :
  reachable s →
  (∀ i j a a', authors s !! i = Some a → authors s !! j = Some a' →
               a !! "id" = a' !! "id" → i = j) ∧
  (∀ i j b b', books s !! i = Some b → books s !! j = Some b' →
               b !! "id" = b' !! "id" → i = j).
Proof.
  intros [Ha Hb]%numbered_reachable.
  split; intros i j x y; by apply numbered_unique.
Qed.

(** X10: in every store reachable from the initial dataset,
    [GET /authors/{id}] with the id [str (i + 1)] answers 200 with exactly
    the author at position [i] of the list. *)
Theorem get_author_by_position (s : store) (i : nat) (a : dict) :
  reachable s → authors s !! i = Some a →
  get_author (str (i + 1)) s = (Ok (VDict a, 200), s).
Proof.
  intros [Ha _]%numbered_reachable Hi. run_handler.
  by rewrite (next_match_numbered _ _ _ Ha Hi).
Qed.

(** X11: in every store reachable from the initial dataset,
    [GET /books/{id}] with the id [str (i + 1)] answers 200 with the book
    at position [i] of the list, extended by an [author] entry that is never
    [None]: it is an author of the list whose id is the book's
    [author_id]. *)
Theorem get_book_by_position (s : store) (i : nat) (b : dict) :
  reachable s → books s !! i = Some b →
  ∃ a, a ∈ authors s ∧ a !! "id" = b !! "author_id" ∧
       get_book (str (i + 1)) s =
         (Ok (VDict (<[ "author" := VDict a ]> b), 200), s).
Proof.
  intros Hreach Hi.
  destruct (numbered_reachable s Hreach) as [_ Hb].
  destruct (integrity_reachable s Hreach) as [Hids Hbooks].
  rewrite Forall_lookup in Hbooks.
  destruct (Hbooks i b Hi) as [_ (j & a0 & Hj & Hin0 & Hid0)].
  assert (Forall (λ x : dict, is_Some (x !! "id")) (authors s)) as Hwf.
  { eapply Forall_impl; [exact Hids |]. intros x [k Hk]. by exists (VStr k). }
  destruct (next_match_spec "id" (VStr j) (authors s) Hwf)
    as (o & Hscan & Hfirst).
  destruct o as [a|]; [|by destruct (Hfirst a0 Hin0); apply matches_str].
  apply first_with_Some_elem in Hfirst as [Hin Hid%matches_str].
  exists a. split_and!; [done | by rewrite Hid, Hj |].
  run_handler. rewrite (next_match_numbered _ _ _ Hb Hi). simpl.
  by rewrite Hj, Hscan.
Qed.

(** ** Round trips and joins *)

Lemma next_match_numbered_value (l : list dict) (i : nat) (x : dict) v :
  numbered l → l !! i = Some x → matches "id" v x →
  next_match "id" (Ok v) l = Ok (Some x).
Proof.
  intros Hl Hx Hm. unfold matches in Hm. rewrite (Hl i x Hx) in Hm.
  apply py_eq_str_l in Hm as ->. by apply next_match_numbered.
Qed.

(** What [GET /books/{id}] does, by the outcomes of its two scans. *)
Lemma get_book_run (s : store) (book_id : string) :
  get_book book_id s =
    match next_match "id" (Ok (VStr book_id)) (books s) with
    | Ok None => (Ok (VDict {[ "error" := VStr "Book not found" ]}, 404), s)
    | Ok (Some book) =>
        match next_match "id" (subscript (VDict book) "author_id")
                (authors s) with
        | Ok author =>
            (Ok (VDict (<[ "author" := opt_value author ]> book), 200), s)
        | Raise e => (Raise e, s)
        end
    | Raise e => (Raise e, s)
    end.
Proof.
  unfold get_book, mbind, M_bind, mret, M_ret, lift, read_authors, read_books,
    jsonify.
  destruct (next_match "id" (Ok (VStr book_id)) (books s)) as [[b|]|];
    [|done|done].
  by destruct (next_match "id" (subscript (VDict b) "author_id") (authors s)).
Qed.

Lemma BookType_resolve_author_run (self : dict) (s : store) :
  BookType_resolve_author self s =
    (next_match "id" (Ok (default VNone (self !! "author_id"))) (authors s), s).
Proof. done. Qed.

(** X12: create, then look up.  In every store reachable from the initial
    dataset, [POST /authors] with an object that has a [name] entry answers
    201 with a record, and [GET /authors/{id}] with that record's id on the
    resulting store answers 200 with the same record. *)
Theorem create_then_get_author (s : store) (d : dict) (name : value) :
  reachable s → d !! "name" = Some name →
  ∃ (a : dict) (i : string) (s' : store),
    create_author (VDict d) s = (Ok (VDict a, 201), s') ∧
    a !! "id" = Some (VStr i) ∧
    get_author i s' = (Ok (VDict a, 200), s').
Proof.
  intros [Ha _]%numbered_reachable Hd.
  set (a := ({[ "id" := VStr (str (length (authors s) + 1)); "name" := name;
                "age" := default VNone (d !! "age") ]} : dict)).
  assert (a !! "id" = Some (VStr (str (length (authors s) + 1)))) as Haid
    by apply lookup_insert_eq.
  assert (numbered (authors s ++ [a])) as Hna by by apply numbered_snoc.
  assert ((authors s ++ [a]) !! length (authors s) = Some a) as Hlast
    by apply list_lookup_middle, eq_refl.
  exists a, (str (length (authors s) + 1)),
    (Store (authors s ++ [a]) (books s)).
  split_and!; [by apply create_author_run | done |].
  unfold get_author, mbind, M_bind, mret, M_ret, lift, read_authors, jsonify.
  simpl authors. by rewrite (next_match_numbered _ _ _ Hna Hlast).
Qed.

(** X13: create, then look up.  In every store reachable from the initial
    dataset, [POST /books] with a title and the id of an author [a] of the
    list answers 201 with a record, and [GET /books/{id}] with that record's
    id on the resulting store answers 200 with the same record extended by
    [author := a]. *)
Theorem create_then_get_book (s : store) (d : dict) (title author_id : value)
    (a : dict) :
  reachable s →
  d !! "title" = Some title → d !! "author_id" = Some author_id →
  a ∈ authors s → matches "id" author_id a →
  ∃ (b : dict) (i : string) (s' : store),
    create_book (VDict d) s = (Ok (VDict b, 201), s') ∧
    b !! "id" = Some (VStr i) ∧
    get_book i s' = (Ok (VDict (<[ "author" := VDict a ]> b), 200), s').
Proof.
  intros Hreach Ht Hid Hin Hm.
  destruct (numbered_reachable s Hreach) as [Ha Hb].
  apply list_elem_of_lookup_1 in Hin as [k Hk].
  pose proof (next_match_numbered_value _ _ _ _ Ha Hk Hm) as Hscan.
  set (b := ({[ "id" := VStr (str (length (books s) + 1));
                "title" := title; "author_id" := author_id ]} : dict)).
  assert (b !! "id" = Some (VStr (str (length (books s) + 1)))) as Hbid
    by apply lookup_insert_eq.
  assert (b !! "author_id" = Some author_id) as Hbaid
    by (unfold b;
        by rewrite lookup_insert_ne, lookup_insert_ne, lookup_singleton_eq).
  assert (numbered (books s ++ [b])) as Hnb by by apply numbered_snoc.
  assert ((books s ++ [b]) !! length (books s) = Some b) as Hlast
    by apply list_lookup_middle, eq_refl.
  exists b, (str (length (books s) + 1)), (Store (authors s) (books s ++ [b])).
  split_and!; [| done |].
  - by rewrite (create_book_run s d _ _ Ht Hid), Hscan.
  - rewrite get_book_run. simpl authors. simpl books.
    rewrite (next_match_numbered _ _ _ Hnb Hlast).
    unfold subscript. by rewrite Hbaid, Hscan.
Qed.

(** X14: in every store reachable from the initial dataset, the [author]
    field of a book of the books list never resolves to [None]: it resolves
    to an author of the authors list whose id is the book's [author_id]. *)
Theorem book_author_resolves (s : store) (b : dict) :
  reachable s → b ∈ books s →
  ∃ a, BookType_resolve_author b s = (Ok (Some a), s) ∧
       a ∈ authors s ∧ a !! "id" = b !! "author_id".
Proof.
  intros Hreach Hin.
  destruct (numbered_reachable s Hreach) as [Ha _].
  destruct (integrity_reachable s Hreach) as [_ Hbooks].
  rewrite Forall_forall in Hbooks.
  destruct (Hbooks b Hin) as [_ (j & a & Hj & Hina & Hida)].
  exists a. split_and!; [| done | by rewrite Hida, Hj].
  rewrite BookType_resolve_author_run, Hj. simpl.
  apply list_elem_of_lookup_1 in Hina as [k Hk].
  rewrite (next_match_numbered_value _ _ _ _ Ha Hk); [done |].
  by apply matches_str.
Qed.

(** X15: the two GraphQL joins are inverse to each other.  In every store
    reachable from the initial dataset and for every author [a] of the
    authors list, the [books] field of [a] resolves to a list that holds
    exactly the books of the books list whose [author] field resolves to
    [a]. *)
Theorem author_books_inverse (s : store) (a : dict) :
  reachable s → a ∈ authors s →
  ∃ bs, AuthorType_resolve_books a s = (Ok bs, s) ∧
        ∀ b, b ∈ bs ↔
             b ∈ books s ∧ BookType_resolve_author b s = (Ok (Some a), s).
Proof.
  intros Hreach Hin.
  destruct (numbered_reachable s Hreach) as [Ha _].
  destruct (integrity_reachable s Hreach) as [_ Hbooks].
  apply list_elem_of_lookup_1 in Hin as [k Hk].
  pose proof (Ha k a Hk) as Hid.
  exists (filter (matches "author_id" (VStr (str (k + 1)))) (books s)). split.
  - unfold AuthorType_resolve_books, mbind, M_bind, lift, read_books.
    rewrite Hid. simpl. rewrite comprehension_spec; [done |].
    eapply Forall_impl; [exact Hbooks |].
    intros b [_ (j & _ & Hj & _)]. by exists (VStr j).
  - intros b. rewrite list_elem_of_filter, matches_str.
    rewrite BookType_resolve_author_run.
    split.
    + intros [Hb Hinb]. split; [done |].
      rewrite Hb. simpl. by rewrite (next_match_numbered _ _ _ Ha Hk).
    + intros [Hinb Hb]. split; [|done]. injection Hb as Hb.
      apply next_match_Some in Hb as (_ & v & [= <-] & Hm).
      unfold matches in Hm. rewrite Hid in Hm. apply py_eq_str_l in Hm.
      rewrite Forall_forall in Hbooks.
      destruct (Hbooks b Hinb) as [_ (j & _ & Hj & _)].
      rewrite Hj in Hm |- *. simpl in Hm. by rewrite Hm.
Qed.

(** ** The two applications on the same store: reads *)

Lemma first_with_functional (P : dict → Prop) l x o :
  first_with P l (Some x) → first_with P l o → o = Some x.
Proof.
  intros (l1 & l2 & -> & HPx & Hl1) Ho. destruct o as [y|]; simpl in Ho.
  - destruct Ho as (k1 & k2 & Heq & HPy & Hk1). f_equal.
    assert ((l1 ++ x :: l2) !! length l1 = Some x) as Hx
      by apply list_lookup_middle, eq_refl.
    assert ((k1 ++ y :: k2) !! length k1 = Some y) as Hy
      by apply list_lookup_middle, eq_refl.
    destruct (Nat.lt_total (length l1) (length k1)) as [Hlt | [Heql | Hlt]].
    + rewrite Heq, lookup_app_l in Hx by done.
      destruct (Hk1 x); [by eapply list_elem_of_lookup_2 | done].
    + rewrite Heq, Heql, Hy in Hx. by injection Hx.
    + rewrite <- Heq, lookup_app_l in Hy by done.
      destruct (Hl1 y); [by eapply list_elem_of_lookup_2 | done].
  - destruct (Ho x); [|done]. apply elem_of_app. right. apply elem_of_cons.
    by left.
Qed.


(** X17: the two joins differ on a book without an [author_id] entry.  When
    the authors list is not empty and its records have ids, [GET /books/{id}]
    for such a book raises [KeyError], because it reads [book["author_id"]],
    while the GraphQL resolver, which reads [self.get("author_id")],
    returns normally. *)
Theorem joins_differ_without_author_id (s : store) (book_id : string)
    (b : dict) :
  Forall wf_author (authors s) → authors s ≠ [] →
  Forall (λ x : dict, is_Some (x !! "id")) (books s) →
  first_with (λ b, b !! "id" = Some (VStr book_id)) (books s) (Some b) →
  b !! "author_id" = None →
  get_book book_id s = (Raise KeyError, s) ∧
  ∃ o, BookType_resolve_author b s = (Ok o, s).
Proof.
  intros Ha Hne Hbid Hfirst Hnone.
  destruct (next_match_spec "id" (VStr book_id) (books s) Hbid)
    as (ob & Hrunb & Hfirstb).
  apply (first_with_ext _ (λ b, b !! "id" = Some (VStr book_id)))
    in Hfirstb; [|intros; apply matches_str].
  apply (first_with_functional _ _ _ _ Hfirst) in Hfirstb as ->.
  split.
  - rewrite get_book_run, Hrunb. unfold subscript. rewrite Hnone.
    destruct Ha as [|a l [w Hw] _]; [done |]. simpl. by rewrite Hw.
  - destruct (next_match_spec "id" VNone (authors s) Ha) as (o & Hruna & _).
    exists o. by rewrite BookType_resolve_author_run, Hnone, <- Hruna.
Qed.

(** X18: the REST lookup and the GraphQL lookup of an author agree on every
    store.  [GET /authors/{id}] answers 200 with the author that the
    [author(id)] query field resolves to, 404 when the field resolves to
    [None], and raises when the resolver raises. *)
Theorem author_lookups_agree (s : store) (id : string) :
  get_author id s =
    match Query_resolve_author id s with
    | (Ok (Some a), s') => (Ok (VDict a, 200), s')
    | (Ok None, s') =>
        (Ok (VDict {[ "error" := VStr "Author not found" ]}, 404), s')
    | (Raise e, s') => (Raise e, s')
    end.
Proof.
  unfold get_author, Query_resolve_author, mbind, M_bind, mret, M_ret, lift,
    read_authors, jsonify.
  by destruct (next_match "id" (Ok (VStr id)) (authors s)) as [[a|]|].
Qed.

(** X19: a record without an [id] entry breaks the lookups that reach it.
    When the authors before it have ids, none of them the requested one,
    [GET /authors/{id}] and the [author(id)] query field raise [KeyError]
    and leave the store as it was. *)
Theorem lookup_raises_on_missing_id (s : store) (id : string)
    (l1 l2 : list dict) (x : dict) :
  authors s = l1 ++ x :: l2 →
  (∀ a, a ∈ l1 → ∃ v, a !! "id" = Some v ∧ v ≠ VStr id) →
  x !! "id" = None →
  get_author id s = (Raise KeyError, s) ∧
  Query_resolve_author id s = (Raise KeyError, s).
Proof.
  intros Heq Hl1 Hx.
  assert (next_match "id" (Ok (VStr id)) (authors s) = Raise KeyError) as Hscan.
  { rewrite Heq. clear Heq. induction l1 as [|a l1 IH]; simpl.
    - by rewrite Hx.
    - destruct (Hl1 a) as (v & Hv & Hne); [apply elem_of_cons; by left |].
      rewrite Hv. simpl. destruct (py_eq v (VStr id)) eqn:Hpy.
      + by apply py_eq_str_r in Hpy.
      + apply IH. intros a' Ha'. apply Hl1, elem_of_cons. by right. }
  unfold get_author, Query_resolve_author, mbind, M_bind, mret, M_ret, lift,
    read_authors.
  by rewrite Hscan.
Qed.

(** X20: the two applications report an unknown author with the same text.
    On a well-formed store and for a string id that no author has,
    [POST /books] answers 400 with the error
    ["No Author found with id=" + id] and the [createBook] mutation raises an
    exception with the same message; both leave the store as it was. *)
Theorem unknown_author_message (s : store) (d : dict) (title : value)
    (gql_title author_id : string) :
  wf_store s →
  d !! "title" = Some title → d !! "author_id" = Some (VStr author_id) →
  (∀ a, a ∈ authors s → a !! "id" ≠ Some (VStr author_id)) →
  create_book (VDict d) s =
    (Ok (VDict {[ "error" :=
            VStr ("No Author found with id=" +:+ author_id) ]}, 400), s) ∧
  CreateBook_mutate gql_title author_id s =
    (Raise (Exception ("No Author found with id=" +:+ author_id)), s).
Proof.
  intros [Ha _] Ht Hid Hno.
  assert (next_match "id" (Ok (VStr author_id)) (authors s) = Ok None) as Hscan.
  { apply next_match_None; [done |].
    intros a Hin Hm%matches_str. by destruct (Hno a Hin). }
  split.
  - by rewrite (create_book_run s d _ _ Ht Hid), Hscan.
  - by rewrite CreateBook_mutate_run, Hscan.
Qed.

(** ** How the requests compose *)

Lemma AuthorType_resolve_books_run (self : dict) (s : store) :
  AuthorType_resolve_books self s =
    (comprehension "author_id" (default VNone (self !! "id")) (books s), s).
Proof. done. Qed.

Lemma integrity_has_author_id (s : store) :
  integrity s → Forall (λ b : dict, is_Some (b !! "author_id")) (books s).
Proof.
  intros [_ Hb]. eapply Forall_impl; [exact Hb |].
  intros b [_ (j & _ & Hj & _)]. by exists (VStr j).
Qed.

Lemma filter_none (P : dict → Prop) `{!∀ x, Decision (P x)} (l : list dict) :
  (∀ x, x ∈ l → ¬ P x) → filter P l = [].
Proof.
  intros Hno. destruct (filter P l) as [|y l'] eqn:Hf; [done |].
  assert (y ∈ filter P l) as [Hy Hin]%list_elem_of_filter
    by (rewrite Hf; apply elem_of_cons; by left).
  by destruct (Hno y Hin).
Qed.

(** X21: a new author has no books.  In every store reachable from the
    initial dataset, the [createAuthor] mutation returns a record under
    whose id the [author(id)] query field then resolves to that record, and
    whose [books] field resolves to the empty list. *)
Theorem new_author_has_no_books (s : store) (name : string) (age : option Z) :
  reachable s →
  ∃ (a : dict) (i : string) (s' : store),
    CreateAuthor_mutate name age s = (Ok a, s') ∧
    a !! "id" = Some (VStr i) ∧
    Query_resolve_author i s' = (Ok (Some a), s') ∧
    AuthorType_resolve_books a s' = (Ok [], s').
Proof.
  intros Hreach.
  destruct (numbered_reachable s Hreach) as [Ha _].
  pose proof (integrity_reachable s Hreach) as Hint.
  set (a := ({[ "id" := VStr (str (length (authors s) + 1));
                "name" := VStr name;
                "age" := from_option VInt VNone age ]} : dict)).
  assert (a !! "id" = Some (VStr (str (length (authors s) + 1)))) as Haid
    by apply lookup_insert_eq.
  assert (numbered (authors s ++ [a])) as Hna by by apply numbered_snoc.
  assert ((authors s ++ [a]) !! length (authors s) = Some a) as Hlast
    by apply list_lookup_middle, eq_refl.
  exists a, (str (length (authors s) + 1)),
    (Store (authors s ++ [a]) (books s)).
  split_and!; [by apply CreateAuthor_mutate_run | done | |].
  - unfold Query_resolve_author, mbind, M_bind, lift, read_authors.
    simpl authors. by rewrite (next_match_numbered _ _ _ Hna Hlast).
  - rewrite AuthorType_resolve_books_run, Haid. simpl books. simpl default.
    rewrite comprehension_spec by by apply integrity_has_author_id.
    f_equal. f_equal. apply filter_none.
    intros b Hb Hm%matches_str.
    destruct Hint as [_ Hbooks]. rewrite Forall_forall in Hbooks.
    destruct (Hbooks b Hb) as [_ (j & x & Hj & [k Hk]%list_elem_of_lookup_1 & Hx)].
    rewrite Hj in Hm. injection Hm as ->.
    rewrite (Ha k x Hk) in Hx. injection Hx as Hx%str_inj.
    apply lookup_lt_Some in Hk. lia.
Qed.

(** X22: a new book is listed under its author and under no other.  In
    every store reachable from the initial dataset and for every author [a]
    of the list, the [createBook] mutation with the id of [a] returns a
    record; afterwards the [books] field of [a] resolves to its former value
    followed by the new record, and the [books] field of every author with
    another id resolves to its former value. *)
Theorem new_book_listed_under_author (s : store) (a : dict)
    (title author_id : string) :
  reachable s → a ∈ authors s → a !! "id" = Some (VStr author_id) →
  ∃ (b : dict) (old : list dict) (s' : store),
    CreateBook_mutate title author_id s = (Ok b, s') ∧
    AuthorType_resolve_books a s = (Ok old, s) ∧
    AuthorType_resolve_books a s' = (Ok (old ++ [b]), s') ∧
    ∀ a', a' ∈ authors s → a' !! "id" ≠ Some (VStr author_id) →
          (AuthorType_resolve_books a' s').1 = (AuthorType_resolve_books a' s).1.
Proof.
  intros Hreach [k Hk]%list_elem_of_lookup_1 Hid.
  destruct (numbered_reachable s Hreach) as [Ha _].
  pose proof (integrity_has_author_id s (integrity_reachable s Hreach)) as Hb.
  set (b := ({[ "id" := VStr (str (length (books s) + 1));
                "title" := VStr title;
                "author_id" := VStr author_id ]} : dict)).
  assert (b !! "author_id" = Some (VStr author_id)) as Hbaid
    by (unfold b;
        by rewrite lookup_insert_ne, lookup_insert_ne, lookup_singleton_eq).
  assert (Forall (λ b : dict, is_Some (b !! "author_id")) (books s ++ [b]))
    as Hb'.
  { apply Forall_app. split; [done |]. repeat constructor. by eexists. }
  exists b, (filter (matches "author_id" (VStr author_id)) (books s)),
    (Store (authors s) (books s ++ [b])).
  split_and!.
  - rewrite CreateBook_mutate_run.
    rewrite (next_match_numbered_value _ _ _ _ Ha Hk); [done |].
    by apply matches_str.
  - rewrite AuthorType_resolve_books_run, Hid. simpl.
    by rewrite comprehension_spec.
  - rewrite AuthorType_resolve_books_run, Hid. simpl books. simpl default.
    rewrite comprehension_spec by done.
    rewrite filter_app, filter_cons_True, filter_nil; [done |].
    by apply matches_str.
  - intros a' [k' Hk']%list_elem_of_lookup_1 Hne.
    rewrite !AuthorType_resolve_books_run, (Ha k' a' Hk'). simpl.
    rewrite !comprehension_spec by done. f_equal.
    rewrite filter_app, filter_cons_False, filter_nil, app_nil_r; [done |].
    intros Hm%matches_str. rewrite Hbaid in Hm. injection Hm as Hm.
    apply Hne. by rewrite (Ha k' a' Hk'), Hm.
Qed.

(** X23: the list routes show what the create routes appended.  On every
    store, after a [POST /authors] that answered 201 with a record,
    [GET /authors] answers 200 with the former authors, in their order,
    followed by that record; and likewise for [POST /books] and
    [GET /books]. *)
Theorem listing_after_create (s s' : store) (data : value) (x : dict) :
  (create_author data s = (Ok (VDict x, 201), s') →
   get_authors s' = (Ok (VList ((VDict <$> authors s) ++ [VDict x]), 200), s')) ∧
  (create_book data s = (Ok (VDict x, 201), s') →
   get_books s' = (Ok (VList ((VDict <$> books s) ++ [VDict x]), 200), s')).
Proof.
  split; intros Hrun.
  - destruct (create_author_cases data s) as [(a & _ & Ha) | (r & Hr & Hne)].
    + rewrite Ha in Hrun. injection Hrun as -> <-.
      unfold get_authors, mbind, M_bind, mret, M_ret, read_authors,
        jsonify_list.
      simpl. by rewrite fmap_app.
    + rewrite Hr in Hrun. injection Hrun as -> _. by destruct (Hne (VDict x)).
  - destruct (create_book_cases data s) as [(b & _ & Hb) | (r & Hr & Hne)].
    + rewrite Hb in Hrun. injection Hrun as -> <-.
      unfold get_books, mbind, M_bind, mret, M_ret, read_books, jsonify_list.
      simpl. by rewrite fmap_app.
    + rewrite Hr in Hrun. injection Hrun as -> _. by destruct (Hne (VDict x)).
Qed.

End Applications.

(** ** The handlers on concrete requests *)

Lemma wf_initial : wf_store initial_store.
Proof. apply integrity_wf, integrity_initial. Qed.

Example create_author_list_body :
  create_author (VList [VStr "name"]) initial_store =
    (Raise TypeError, initial_store).
Proof. reflexivity. Qed.

Example create_author_empty_body :
  create_author (VDict ∅) initial_store =
    (Ok (VDict {[ "error" := VStr "Missing required field 'name'" ]}, 400),
     initial_store).
Proof. reflexivity. Qed.

Example create_book_number_id :
  create_book repr_elided
    (VDict {[ "title" := VStr "Dune"; "author_id" := VInt 1 ]}) initial_store =
    (Ok (VDict {[ "error" := VStr "No Author found with id=1" ]}, 400),
     initial_store).
Proof. vm_compute. reflexivity. Qed.

Example get_book_unknown :
  get_book "8" initial_store =
    (Ok (VDict {[ "error" := VStr "Book not found" ]}, 404), initial_store).
Proof. vm_compute. reflexivity. Qed.

Lemma get_author_status_witness :
  ∃ body status,
    get_author "2" initial_store = (Ok (body, status), initial_store) ∧
    (status = 404 ↔
       ∀ a, a ∈ authors initial_store → a !! "id" ≠ Some (VStr "2")) ∧
    (status = 404 → error_body body) ∧
    (status ≠ 404 →
       status = 200 ∧
       ∃ a, body = VDict a ∧
            first_with (λ a, a !! "id" = Some (VStr "2"))
                       (authors initial_store) (Some a)).
Proof. apply (get_author_status initial_store "2"), wf_initial. Defined.

Lemma get_book_embeds_author_witness :
  ∃ body b author_id,
    get_book "4" initial_store = (Ok (VDict body, 200), initial_store) ∧
    first_with (λ b, b !! "id" = Some (VStr "4")) (books initial_store)
               (Some b) ∧
    b !! "author_id" = Some author_id ∧
    ((∃ a, first_with (matches "id" author_id) (authors initial_store)
                      (Some a) ∧
           body !! "author" = Some (VDict a)) ∨
     ((∀ a, a ∈ authors initial_store → ¬ matches "id" author_id a) ∧
      body !! "author" = Some VNone)) ∧
    ∀ k, k ≠ "author" → body !! k = b !! k.
Proof.
  apply (get_book_embeds_author initial_store "4" wf_initial).
  exists the_hobbit. split; [|reflexivity].
  apply (list_elem_of_lookup_2 _ 3). reflexivity.
Defined.

Lemma author_books_is_filter_witness :
  Query_resolve_all_books initial_store =
    (Ok (books initial_store), initial_store) ∧
  AuthorType_resolve_books tolkien initial_store =
    (Ok (filter (λ b, matches "author_id" (VStr "2") b)
           (books initial_store)), initial_store) ∧
  ∀ b, matches "author_id" (VStr "2") b ↔ b !! "author_id" = Some (VStr "2").
Proof.
  apply (author_books_is_filter initial_store "2"); [apply wf_initial |].
  vm_compute. reflexivity.
Defined.

Lemma create_book_unknown_author_witness :
  (∃ body,
     create_book repr_elided
       (VDict {[ "title" := VStr "Dune"; "author_id" := VStr "9" ]})
       initial_store = (Ok (body, 400), initial_store) ∧
     error_body body) ∧
  (∃ msg,
     CreateBook_mutate "Dune" "9" initial_store =
       (Raise (Exception msg), initial_store)).
Proof.
  destruct (create_book_unknown_author repr_elided initial_store wf_initial)
    as [Hrest Hgraphql].
  split.
  - apply (Hrest _ (VStr "9")); [reflexivity |].
    apply Forall_forall. apply (bool_decide_unpack _). vm_compute. exact I.
  - apply Hgraphql.
    apply Forall_forall. unfold initial_store, initial_authors. simpl.
    repeat constructor; discriminate.
Defined.

Lemma create_author_id_witness :
  ∃ a i,
    create_author (VDict {[ "name" := VStr "Ursula K. Le Guin" ]})
      initial_store =
      (Ok (VDict a, 201),
       Store (authors initial_store ++ [a]) (books initial_store)) ∧
    a !! "id" = Some (VStr i) ∧ i = str (length (authors initial_store) + 1) ∧
    option_map Nat.of_uint (NilZero.uint_of_string i) =
      Some (length (authors initial_store) + 1).
Proof.
  apply (proj1 (create_author_id initial_store) _ (VStr "Ursula K. Le Guin")).
  reflexivity.
Defined.

Lemma create_author_without_age_witness :
  ∃ a s',
    create_author (VDict {[ "name" := VStr "Ursula K. Le Guin" ]})
      initial_store = (Ok (VDict a, 201), s') ∧
    a !! "age" = Some VNone ∧ last (authors s') = Some a.
Proof.
  apply (proj1 (create_author_without_age initial_store)
           _ (VStr "Ursula K. Le Guin")); reflexivity.
Defined.

Lemma handle_only_appends_witness :
  ∃ new_authors new_books : list dict,
    authors (handle repr_elided (Field_createBook "Roverandom" "2")
               initial_store) = authors initial_store ++ new_authors ∧
    books (handle repr_elided (Field_createBook "Roverandom" "2")
             initial_store) = books initial_store ++ new_books ∧
    (length new_authors + length new_books ≤ 1)%nat ∧
    (∀ i a, authors initial_store !! i = Some a →
            authors (handle repr_elided (Field_createBook "Roverandom" "2")
                       initial_store) !! i = Some a) ∧
    (∀ i b, books initial_store !! i = Some b →
            books (handle repr_elided (Field_createBook "Roverandom" "2")
                     initial_store) !! i = Some b).
Proof. apply handle_only_appends. Defined.

Lemma referential_integrity_witness :
  ∃ a v,
    a ∈ authors (handle repr_elided (Field_createBook "Roverandom" "2")
                   initial_store) ∧
    ({[ "id" := VStr "8"; "title" := VStr "Roverandom";
        "author_id" := VStr "2" ]} : dict) !! "author_id" = Some v ∧
    a !! "id" = Some v.
Proof.
  apply (referential_integrity repr_elided
           (handle repr_elided (Field_createBook "Roverandom" "2")
              initial_store)).
  - apply reachable_handle, reachable_initial.
  - apply (list_elem_of_lookup_2 _ 7). vm_compute. reflexivity.
Defined.


(** ** The further properties on concrete requests *)

Lemma get_book_not_found_witness :
  get_book "8" initial_store =
    (Ok (VDict {[ "error" := VStr "Book not found" ]}, 404), initial_store).
Proof.
  apply (get_book_not_found initial_store "8" wf_initial).
  apply Forall_forall. unfold initial_store, initial_books. simpl.
  repeat constructor; discriminate.
Defined.

Lemma create_author_missing_name_witness :
  create_author (VDict {[ "age" := VInt 30 ]}) initial_store =
    (Ok (missing_name, 400), initial_store).
Proof.
  apply create_author_missing_name. right. eexists. split; reflexivity.
Defined.

Lemma create_book_missing_fields_witness :
  create_book repr_elided (VDict {[ "title" := VStr "Dune" ]}) initial_store =
    (Ok (missing_title_or_author_id, 400), initial_store).
Proof.
  apply create_book_missing_fields. right. eexists.
  split; [reflexivity | right; reflexivity].
Defined.

Lemma non_object_body_rejected_witness :
  (create_author (VList [VStr "name"]) initial_store =
     (Ok (missing_name, 400), initial_store) ∨
   create_author (VList [VStr "name"]) initial_store =
     (Raise TypeError, initial_store)) ∧
  (create_book repr_elided (VList [VStr "name"]) initial_store =
     (Ok (missing_title_or_author_id, 400), initial_store) ∨
   create_book repr_elided (VList [VStr "name"]) initial_store =
     (Raise TypeError, initial_store)).
Proof.
  destruct (non_object_body_rejected repr_elided initial_store
              (VList [VStr "name"])) as [Hauthor Hbook];
    [intros d; discriminate |].
  split; [exact Hauthor | exact (Hbook wf_initial)].
Defined.


Lemma post_all_or_nothing_witness :
  ((∃ a : dict,
      create_author (VInt 7) initial_store =
        (Ok (VDict a, 201),
         Store (authors initial_store ++ [a]) (books initial_store))) ∨
   (∃ r, create_author (VInt 7) initial_store = (r, initial_store) ∧
         ∀ body, r ≠ Ok (body, 201))) ∧
  ((∃ b : dict,
      create_book repr_elided (VInt 7) initial_store =
        (Ok (VDict b, 201),
         Store (authors initial_store) (books initial_store ++ [b]))) ∨
   (∃ r, create_book repr_elided (VInt 7) initial_store = (r, initial_store) ∧
         ∀ body, r ≠ Ok (body, 201))).
Proof. apply (post_all_or_nothing repr_elided (VInt 7) initial_store). Defined.

Lemma reads_do_not_write_witness :
  handle repr_elided (GET_book "4") initial_store = initial_store.
Proof. apply reads_do_not_write. reflexivity. Defined.

Lemma ids_are_positions_witness :
  (∀ i a, authors initial_store !! i = Some a →
          a !! "id" = Some (VStr (str (i + 1)))) ∧
  (∀ i b, books initial_store !! i = Some b →
          b !! "id" = Some (VStr (str (i + 1)))).
Proof.
  apply (ids_are_positions repr_elided initial_store), reachable_initial.
Defined.

Lemma ids_are_unique_witness :
  (∀ i j a a', authors initial_store !! i = Some a →
               authors initial_store !! j = Some a' →
               a !! "id" = a' !! "id" → i = j) ∧
  (∀ i j b b', books initial_store !! i = Some b →
               books initial_store !! j = Some b' →
               b !! "id" = b' !! "id" → i = j).
Proof.
  apply (ids_are_unique repr_elided initial_store), reachable_initial.
Defined.

Lemma get_author_by_position_witness :
  get_author (str (1 + 1)) initial_store =
    (Ok (VDict tolkien, 200), initial_store).
Proof.
  apply (get_author_by_position repr_elided initial_store 1);
    [apply reachable_initial | reflexivity].
Defined.

Lemma get_book_by_position_witness :
  ∃ a, a ∈ authors initial_store ∧
       a !! "id" = the_hobbit !! "author_id" ∧
       get_book (str (3 + 1)) initial_store =
         (Ok (VDict (<[ "author" := VDict a ]> the_hobbit), 200),
          initial_store).
Proof.
  apply (get_book_by_position repr_elided initial_store 3);
    [apply reachable_initial | reflexivity].
Defined.

Lemma create_then_get_author_witness :
  ∃ (a : dict) (i : string) (s' : store),
    create_author (VDict {[ "name" := VStr "Ursula K. Le Guin" ]})
      initial_store = (Ok (VDict a, 201), s') ∧
    a !! "id" = Some (VStr i) ∧
    get_author i s' = (Ok (VDict a, 200), s').
Proof.
  apply (create_then_get_author repr_elided initial_store _
           (VStr "Ursula K. Le Guin"));
    [apply reachable_initial | reflexivity].
Defined.

Lemma create_then_get_book_witness :
  ∃ (b : dict) (i : string) (s' : store),
    create_book repr_elided
      (VDict {[ "title" := VStr "Roverandom"; "author_id" := VStr "2" ]})
      initial_store = (Ok (VDict b, 201), s') ∧
    b !! "id" = Some (VStr i) ∧
    get_book i s' = (Ok (VDict (<[ "author" := VDict tolkien ]> b), 200), s').
Proof.
  apply (create_then_get_book repr_elided initial_store _
           (VStr "Roverandom") (VStr "2"));
    [apply reachable_initial | reflexivity | reflexivity | |].
  - apply (list_elem_of_lookup_2 _ 1). reflexivity.
  - vm_compute. reflexivity.
Defined.

Lemma book_author_resolves_witness :
  ∃ a, BookType_resolve_author the_hobbit initial_store =
         (Ok (Some a), initial_store) ∧
       a ∈ authors initial_store ∧
       a !! "id" = the_hobbit !! "author_id".
Proof.
  apply (book_author_resolves repr_elided initial_store);
    [apply reachable_initial |].
  apply (list_elem_of_lookup_2 _ 3). reflexivity.
Defined.

Lemma author_books_inverse_witness :
  ∃ bs, AuthorType_resolve_books tolkien initial_store =
          (Ok bs, initial_store) ∧
        ∀ b, b ∈ bs ↔
             b ∈ books initial_store ∧
             BookType_resolve_author b initial_store =
               (Ok (Some tolkien), initial_store).
Proof.
  apply (author_books_inverse repr_elided initial_store);
    [apply reachable_initial |].
  apply (list_elem_of_lookup_2 _ 1). reflexivity.
Defined.


Lemma joins_differ_without_author_id_witness :
  get_book "1" (Store initial_authors [untitled]) =
    (Raise KeyError, Store initial_authors [untitled]) ∧
  ∃ o, BookType_resolve_author untitled (Store initial_authors [untitled]) =
         (Ok o, Store initial_authors [untitled]).
Proof.
  apply (joins_differ_without_author_id
           (Store initial_authors [untitled]) "1").
  - apply wf_initial.
  - discriminate.
  - repeat constructor. eexists. reflexivity.
  - exists [], []. split_and!; [reflexivity | reflexivity |].
    intros y Hy. apply elem_of_nil in Hy. destruct Hy.
  - reflexivity.
Defined.

Lemma lookup_raises_on_missing_id_witness :
  get_author "2" (Store [rowling; anonymous] initial_books) =
    (Raise KeyError, Store [rowling; anonymous] initial_books) ∧
  Query_resolve_author "2" (Store [rowling; anonymous] initial_books) =
    (Raise KeyError, Store [rowling; anonymous] initial_books).
Proof.
  apply (lookup_raises_on_missing_id
           (Store [rowling; anonymous] initial_books)
           "2" [rowling] [] anonymous).
  - reflexivity.
  - intros a Ha. apply elem_of_cons in Ha as [-> | Ha].
    + eexists. split; [reflexivity | discriminate].
    + apply elem_of_nil in Ha. destruct Ha.
  - reflexivity.
Defined.

Lemma unknown_author_message_witness :
  create_book repr_elided
    (VDict {[ "title" := VStr "Dune"; "author_id" := VStr "9" ]})
    initial_store =
    (Ok (VDict {[ "error" := VStr ("No Author found with id=" +:+ "9") ]},
         400), initial_store) ∧
  CreateBook_mutate "Dune" "9" initial_store =
    (Raise (Exception ("No Author found with id=" +:+ "9")), initial_store).
Proof.
  apply (unknown_author_message repr_elided initial_store _ (VStr "Dune")
           "Dune" "9" wf_initial); [reflexivity | reflexivity |].
  apply Forall_forall. unfold initial_store, initial_authors. simpl.
  repeat constructor; discriminate.
Defined.

Lemma new_author_has_no_books_witness :
  ∃ (a : dict) (i : string) (s' : store),
    CreateAuthor_mutate "Ursula K. Le Guin" (Some 88%Z) initial_store =
      (Ok a, s') ∧
    a !! "id" = Some (VStr i) ∧
    Query_resolve_author i s' = (Ok (Some a), s') ∧
    AuthorType_resolve_books a s' = (Ok [], s').
Proof.
  apply (new_author_has_no_books repr_elided initial_store), reachable_initial.
Defined.

Lemma new_book_listed_under_author_witness :
  ∃ (b : dict) (old : list dict) (s' : store),
    CreateBook_mutate "Roverandom" "2" initial_store = (Ok b, s') ∧
    AuthorType_resolve_books tolkien initial_store = (Ok old, initial_store) ∧
    AuthorType_resolve_books tolkien s' = (Ok (old ++ [b]), s') ∧
    ∀ a', a' ∈ authors initial_store → a' !! "id" ≠ Some (VStr "2") →
          (AuthorType_resolve_books a' s').1 =
          (AuthorType_resolve_books a' initial_store).1.
Proof.
  apply (new_book_listed_under_author repr_elided initial_store);
    [apply reachable_initial | | reflexivity].
  apply (list_elem_of_lookup_2 _ 1). reflexivity.
Defined.

Lemma listing_after_create_witness :
  get_authors
    (Store (initial_authors ++
            [{[ "id" := VStr "3"; "name" := VStr "Ursula K. Le Guin";
                "age" := VNone ]}]) initial_books) =
    (Ok (VList ((VDict <$> authors initial_store) ++
                [VDict {[ "id" := VStr "3";
                          "name" := VStr "Ursula K. Le Guin";
                          "age" := VNone ]}]), 200),
     Store (initial_authors ++
            [{[ "id" := VStr "3"; "name" := VStr "Ursula K. Le Guin";
                "age" := VNone ]}]) initial_books).
Proof.
  apply (proj1 (listing_after_create repr_elided initial_store _
                  (VDict {[ "name" := VStr "Ursula K. Le Guin" ]}) _)).
  vm_compute. reflexivity.
Defined.

(** ** Where the two applications part

    [POST /books] and [POST /authors] store the entries of the body as they
    come, whatever their type; the mutations receive a string title, author
    id and name and an optional integer age from the schema. *)

